(** * Task Overlay API: the record store and its upsert / query layer

    A shallow embedding of [backend/main.py]: the SQLite tables become lists
    of rows held in a [Store], every endpoint becomes a [handler] (a state
    and error monad over the store), and the SQL statements the endpoints
    execute become functions on the tables. *)

From Stdlib Require Import ZArith List String Permutation Sorted.
From Stdlib Require Import Floats.SpecFloat.
From stdpp Require Import base decidable option list sorting strings gmap.

Local Open Scope string_scope.
Local Open Scope list_scope.
Local Open Scope Z_scope.

(** ** Pydantic models (request and response bodies) *)

(** [class ViewerInfo(BaseModel)]: [info] is a [Dict[str, str]]. *)
Record ViewerInfo := {
  vi_username : string;
  vi_info : gmap string string;
  vi_task_count : Z
}.

(** [class BacklogItem(BaseModel)]. *)
Record BacklogItem := {
  bi_username : string;
  bi_description : string;
  bi_priority : Z;
  bi_completed : bool
}.

(** [class BacklogItemResponse(BacklogItem)]: the item with [id] and
    [created_at]. *)
Record BacklogItemResponse := {
  br_id : Z;
  br_username : string;
  br_description : string;
  br_priority : Z;
  br_completed : bool;
  br_created_at : Z
}.

(** [class Preference(BaseModel)]. *)
Record Preference := {
  pf_key : string;
  pf_value : string
}.

(** ** Tables, as [init_db] creates them *)

(** A row of [viewers].  The [info] column is TEXT holding [json.dumps] of
    the info dictionary; [json.loads] inverts [json.dumps] on a
    [Dict[str, str]], so the column is modelled by the dictionary it encodes,
    with [None] for a NULL or empty text. *)
Record ViewerRow := {
  v_username : string;
  v_info : option (gmap string string);
  v_last_active : Z;
  v_task_count : Z;
  v_created_at : Z
}.

(** A row of [backlog]; [completed] is the BOOLEAN column the API only ever
    writes from a Python [bool]. *)
Record BacklogRow := {
  b_id : Z;
  b_username : string;
  b_description : string;
  b_priority : Z;
  b_completed : bool;
  b_created_at : Z
}.

(** A row of [preferences]. *)
Record PreferenceRow := {
  p_key : string;
  p_value : string;
  p_updated_at : Z
}.

(** The database file.  Tables are kept in rowid order; [backlog_seq] is the
    [sqlite_sequence] entry that AUTOINCREMENT keeps for [backlog]. *)
Record Store := {
  viewers : list ViewerRow;
  backlog : list BacklogRow;
  backlog_seq : Z;
  preferences : list PreferenceRow
}.

Definition with_viewers (vs : list ViewerRow) (s : Store) : Store :=
  {| viewers := vs; backlog := backlog s; backlog_seq := backlog_seq s;
     preferences := preferences s |}.

Definition with_backlog (bs : list BacklogRow) (s : Store) : Store :=
  {| viewers := viewers s; backlog := bs; backlog_seq := backlog_seq s;
     preferences := preferences s |}.

Definition with_preferences (ps : list PreferenceRow) (s : Store) : Store :=
  {| viewers := viewers s; backlog := backlog s; backlog_seq := backlog_seq s;
     preferences := ps |}.

(** The two clocks an endpoint reads: [datetime.now()] in Python and
    [CURRENT_TIMESTAMP] in SQLite. *)
Record Clock := {
  py_now : Z;
  db_now : Z
}.

(** ** Endpoints as a state and error monad *)

(** What an endpoint hands back to FastAPI: a value, an [HTTPException], or
    any other Python exception (an unclassified server error). *)
Inductive outcome (A : Type) : Type :=
  | Ok (a : A)
  | HTTPException (status_code : Z) (detail : string)
  | Unhandled (exc : string).
Arguments Ok {A} a.
Arguments HTTPException {A} status_code detail.
Arguments Unhandled {A} exc.

Definition handler (A : Type) : Type := Store → Store * outcome A.

Definition ret {A} (a : A) : handler A := λ s, (s, Ok a).

Definition raise {A} (status_code : Z) (detail : string) : handler A :=
  λ s, (s, HTTPException status_code detail).

Definition throw {A} (exc : string) : handler A := λ s, (s, Unhandled exc).

Definition bind {A B} (m : handler A) (k : A → handler B) : handler B :=
  λ s, match m s with
       | (s', Ok a) => k a s'
       | (s', HTTPException c d) => (s', HTTPException c d)
       | (s', Unhandled e) => (s', Unhandled e)
       end.

(** [cursor.execute] of a SELECT followed by a fetch: reads the store. *)
Definition query {A} (f : Store → A) : handler A := λ s, (s, Ok (f s)).

(** [cursor.execute] of a writing statement followed by [conn.commit()]:
    replaces the store and yields what the cursor reports ([rowcount] or
    [lastrowid]). *)
Definition execute (f : Store → Store * Z) : handler Z :=
  λ s, let '(s', n) := f s in (s', Ok n).

#[global] Instance handler_ret : MRet handler := @ret.
#[global] Instance handler_bind : MBind handler := λ A B k m, bind m k.

Definition final_store {A} (r : Store * outcome A) : Store := fst r.
Definition response {A} (r : Store * outcome A) : outcome A := snd r.

(** ** SQL statements on [viewers] *)

(** [SELECT * FROM viewers WHERE username = ?] with [fetchone]. *)
Definition select_viewer (username : string) (vs : list ViewerRow) : option ViewerRow :=
  find (λ r, bool_decide (v_username r = username)) vs.

(** [INSERT INTO viewers ... ON CONFLICT(username) DO UPDATE SET ...]: the
    row [new] is appended unless a row has the username, and then [upd]
    rewrites that row in place. *)
Definition insert_or_update_viewer (username : string) (new : ViewerRow)
    (upd : ViewerRow → ViewerRow) (vs : list ViewerRow) : list ViewerRow :=
  if bool_decide (username ∈ v_username <$> vs)
  then (λ r, if bool_decide (v_username r = username) then upd r else r) <$> vs
  else vs ++ [new].

(** [json.loads(row["info"]) if row["info"] else {}]. *)
Definition row_info (row : ViewerRow) : gmap string string :=
  default ∅ (v_info row).

(** ** Viewer endpoints *)

(** [GET /viewers/{username}]. *)
Definition get_viewer (username : string) : handler ViewerInfo :=
  row ← query (λ s, select_viewer username (viewers s));
  match row with
  | None => raise 404 "Viewer not found"
  | Some row =>
      ret {| vi_username := v_username row;
             vi_info := row_info row;
             vi_task_count := v_task_count row |}
  end.

(** [POST /viewers]. *)
Definition upsert_viewer (clk : Clock) (viewer : ViewerInfo) : handler ViewerInfo :=
  _ ← execute (λ s,
        (with_viewers
           (insert_or_update_viewer (vi_username viewer)
              {| v_username := vi_username viewer;
                 v_info := Some (vi_info viewer);
                 v_last_active := py_now clk;
                 v_task_count := vi_task_count viewer;
                 v_created_at := db_now clk |}
              (λ r, {| v_username := v_username r;
                       v_info := Some (vi_info viewer);
                       v_last_active := py_now clk;
                       v_task_count := vi_task_count viewer;
                       v_created_at := v_created_at r |})
              (viewers s)) s, 1));
  ret viewer.

(** The body [{"success": True, "field": field, "value": value}]. *)
Record FieldResponse := {
  fr_success : bool;
  fr_field : string;
  fr_value : string
}.

(** [PUT /viewers/{username}/info]. *)
Definition set_viewer_info (clk : Clock) (username field value : string)
    : handler FieldResponse :=
  row ← query (λ s, select_viewer username (viewers s));
  let info := match row with
              | Some row => row_info row
              | None => ∅
              end in
  let info := <[field := value]> info in
  _ ← execute (λ s,
        (with_viewers
           (insert_or_update_viewer username
              {| v_username := username;
                 v_info := Some info;
                 v_last_active := py_now clk;
                 v_task_count := 0;
                 v_created_at := db_now clk |}
              (λ r, {| v_username := v_username r;
                       v_info := Some info;
                       v_last_active := py_now clk;
                       v_task_count := v_task_count r;
                       v_created_at := v_created_at r |})
              (viewers s)) s, 1));
  ret {| fr_success := true; fr_field := field; fr_value := value |}.

(** ** SQL statements on [backlog] *)

(** [ORDER BY completed ASC, priority DESC, created_at ASC]: row [a] may come
    before row [b]. *)
Definition backlog_order (a b : BacklogRow) : Prop :=
  Z.b2z (b_completed a) < Z.b2z (b_completed b) ∨
  (b_completed a = b_completed b ∧
   (b_priority b < b_priority a ∨
    (b_priority a = b_priority b ∧ b_created_at a ≤ b_created_at b))).

#[global] Instance backlog_order_dec a b : Decision (backlog_order a b).
Proof. unfold backlog_order. apply _. Defined.

(** [SELECT * FROM backlog WHERE username = ? ORDER BY ...] with [fetchall]:
    the matching rows in rowid order, then sorted.  Rows that agree on all
    three keys are left in the order the sorter emits them. *)
Definition select_backlog (username : string) (bs : list BacklogRow) : list BacklogRow :=
  merge_sort backlog_order (filter (λ r, b_username r = username) bs).

(** [SELECT * FROM backlog WHERE id = ?] with [fetchone]. *)
Definition select_backlog_item (item_id : Z) (bs : list BacklogRow) : option BacklogRow :=
  find (λ r, bool_decide (b_id r = item_id)) bs.

(** The rowid AUTOINCREMENT gives a new row: one more than the largest rowid
    the table has ever held.  Rowids are unbounded here; SQLite refuses the
    insert once the largest rowid is [2 ^ 63 - 1]. *)
Definition next_rowid (seq : Z) (bs : list BacklogRow) : Z :=
  Z.max seq (foldr Z.max 0 (b_id <$> bs)) + 1.

(** [INSERT INTO backlog (username, description, priority, completed)
    VALUES (?, ?, ?, ?)]; the cursor reports [lastrowid]. *)
Definition insert_backlog (clk : Clock) (item : BacklogItem) (s : Store) : Store * Z :=
  let rowid := next_rowid (backlog_seq s) (backlog s) in
  ({| viewers := viewers s;
      backlog := backlog s ++
        [ {| b_id := rowid;
             b_username := bi_username item;
             b_description := bi_description item;
             b_priority := bi_priority item;
             b_completed := bi_completed item;
             b_created_at := db_now clk |} ];
      backlog_seq := rowid;
      preferences := preferences s |}, rowid).

(** The rows a [WHERE id = ?] clause selects; their number is [rowcount]. *)
Definition rowcount (item_id : Z) (bs : list BacklogRow) : Z :=
  Z.of_nat (length (filter (λ r, b_id r = item_id) bs)).

Definition toggle_row (r : BacklogRow) : BacklogRow :=
  {| b_id := b_id r; b_username := b_username r; b_description := b_description r;
     b_priority := b_priority r; b_completed := negb (b_completed r);
     b_created_at := b_created_at r |}.

(** [UPDATE backlog SET completed = NOT completed WHERE id = ?]. *)
Definition update_toggle (item_id : Z) (s : Store) : Store * Z :=
  (with_backlog
     ((λ r, if bool_decide (b_id r = item_id) then toggle_row r else r) <$> backlog s) s,
   rowcount item_id (backlog s)).

(** [DELETE FROM backlog WHERE id = ?]. *)
Definition delete_backlog (item_id : Z) (s : Store) : Store * Z :=
  (with_backlog (filter (λ r, b_id r ≠ item_id) (backlog s)) s,
   rowcount item_id (backlog s)).

(** ** Backlog endpoints *)

(** The [BacklogItemResponse(...)] built from a fetched row. *)
Definition backlog_response (row : BacklogRow) : BacklogItemResponse :=
  {| br_id := b_id row;
     br_username := b_username row;
     br_description := b_description row;
     br_priority := b_priority row;
     br_completed := b_completed row;
     br_created_at := b_created_at row |}.

(** [GET /backlog/{username}]. *)
Definition get_backlog (username : string) : handler (list BacklogItemResponse) :=
  rows ← query (λ s, select_backlog username (backlog s));
  ret (backlog_response <$> rows).

(** [POST /backlog]. *)
Definition add_backlog_item (clk : Clock) (item : BacklogItem)
    : handler BacklogItemResponse :=
  item_id ← execute (insert_backlog clk item);
  row ← query (λ s, select_backlog_item item_id (backlog s));
  match row with
  | Some row => ret (backlog_response row)
  | None => throw "TypeError"
  end.

(** The body [{"success": True, "id": item_id}]. *)
Record IdResponse := {
  ir_success : bool;
  ir_id : Z
}.

(** [PUT /backlog/{item_id}/complete]. *)
Definition toggle_backlog_complete (item_id : Z) : handler IdResponse :=
  n ← execute (update_toggle item_id);
  if n =? 0 then raise 404 "Item not found"
  else ret {| ir_success := true; ir_id := item_id |}.

(** [DELETE /backlog/{item_id}]. *)
Definition delete_backlog_item (item_id : Z) : handler IdResponse :=
  n ← execute (delete_backlog item_id);
  if n =? 0 then raise 404 "Item not found"
  else ret {| ir_success := true; ir_id := item_id |}.

(** ** Preferences *)

(** [SELECT value FROM preferences WHERE key = ?] with [fetchone]. *)
Definition select_preference (key : string) (ps : list PreferenceRow) : option PreferenceRow :=
  find (λ r, bool_decide (p_key r = key)) ps.

(** [INSERT INTO preferences ... ON CONFLICT(key) DO UPDATE SET ...]. *)
Definition insert_or_update_preference (clk : Clock) (pref : Preference)
    (ps : list PreferenceRow) : list PreferenceRow :=
  let new := {| p_key := pf_key pref; p_value := pf_value pref;
                p_updated_at := py_now clk |} in
  if bool_decide (pf_key pref ∈ p_key <$> ps)
  then (λ r, if bool_decide (p_key r = pf_key pref) then new else r) <$> ps
  else ps ++ [new].

(** The body [{"success": True, "key": pref.key}]. *)
Record KeyResponse := {
  kr_success : bool;
  kr_key : string
}.

(** [GET /preferences/{key}]: the body [{"key": key, "value": ...}]. *)
Definition get_preference (key : string) : handler Preference :=
  row ← query (λ s, select_preference key (preferences s));
  match row with
  | None => raise 404 "Preference not found"
  | Some row => ret {| pf_key := key; pf_value := p_value row |}
  end.

(** [POST /preferences]. *)
Definition set_preference (clk : Clock) (pref : Preference) : handler KeyResponse :=
  _ ← execute (λ s,
        (with_preferences (insert_or_update_preference clk pref (preferences s)) s, 1));
  ret {| kr_success := true; kr_key := pf_key pref |}.

(** ** Python numbers

    A Python [float] is an IEEE 754 binary64 value, here a [spec_float] with
    the operations of [SpecFloat] at precision 53 and maximal exponent 1024. *)

Definition prec : Z := 53.
Definition emax : Z := 1024.

Inductive py_number : Type :=
  | PyInt (n : Z)
  | PyFloat (x : spec_float).

(** The binary64 value nearest to the rational [n / d], for [0 < d]. *)
Definition nearest_float (n d : Z) : spec_float :=
  match n, d with
  | Z0, _ => S754_zero false
  | Zpos p, Zpos q => SFdiv prec emax (S754_finite false p 0) (S754_finite false q 0)
  | Zneg p, Zpos q => SFdiv prec emax (S754_finite true p 0) (S754_finite false q 0)
  | _, _ => S754_nan
  end.

(** [float(n)], as the arithmetic operators convert an [int] operand. *)
Definition py_float (n : Z) : spec_float := nearest_float n 1.

(** [a / b] on two [int]s: the correctly rounded quotient, and
    [ZeroDivisionError] when [b] is zero. *)
Definition py_truediv (a b : Z) : handler spec_float :=
  if b =? 0 then throw "ZeroDivisionError"
  else if 0 <? b then ret (nearest_float a b)
  else ret (nearest_float (- a) (- b)).

(** [x * n] for a [float] and an [int]. *)
Definition py_mul (x : spec_float) (n : Z) : spec_float :=
  SFmul prec emax x (py_float n).

(** The integer nearest to [n / d], for [0 < d], halves going to the even
    neighbour. *)
Definition round_half_even (n d : Z) : Z :=
  let q := n / d in
  match 2 * (n mod d) ?= d with
  | Lt => q
  | Gt => q + 1
  | Eq => if Z.even q then q else q + 1
  end.

(** The integer nearest to [x * 10 ^ ndigits], computed on the exact value of
    the float [x]: the decimal digits [round] keeps. *)
Definition decimal_digits (x : spec_float) (ndigits : Z) : Z :=
  match x with
  | S754_finite s m e =>
      let n := cond_Zopp s (Zpos m) * 10 ^ ndigits in
      if 0 <=? e then n * 2 ^ e else round_half_even n (2 ^ (- e))
  | _ => 0
  end.

(** [round(x, ndigits)] on a [float], for [0 <= ndigits]: the exact value of
    [x] is rounded to [ndigits] decimals, halves to even, and the float
    nearest to that decimal is returned; zeros, infinities and NaN are
    returned as they are. *)
Definition py_round (x : spec_float) (ndigits : Z) : spec_float :=
  match x with
  | S754_finite _ _ _ => nearest_float (decimal_digits x ndigits) (10 ^ ndigits)
  | _ => x
  end.

(** ** Stats *)

(** The body of [GET /stats/summary]. *)
Record StatsSummary := {
  total_viewers : Z;
  active_viewers_24h : Z;
  total_backlog_items : Z;
  completed_backlog_items : Z;
  completion_rate : py_number
}.

(** [SELECT COUNT( * ) FROM viewers]. *)
Definition count_viewers (s : Store) : Z := Z.of_nat (length (viewers s)).

(** [SELECT COUNT( * ) FROM viewers WHERE last_active > datetime('now', '-1 day')],
    with timestamps in seconds. *)
Definition count_active_viewers (clk : Clock) (s : Store) : Z :=
  Z.of_nat (length (filter (λ r, db_now clk - 86400 < v_last_active r) (viewers s))).

(** [SELECT COUNT( * ) FROM backlog]. *)
Definition count_backlog (s : Store) : Z := Z.of_nat (length (backlog s)).

(** [SELECT COUNT( * ) FROM backlog WHERE completed = 1]. *)
Definition count_completed (s : Store) : Z :=
  Z.of_nat (length (filter (λ r, b_completed r = true) (backlog s))).

(** [GET /stats/summary]. *)
Definition get_stats_summary (clk : Clock) : handler StatsSummary :=
  total_viewers ← query count_viewers;
  active_viewers ← query (count_active_viewers clk);
  total_backlog ← query count_backlog;
  completed_backlog ← query count_completed;
  rate ← (if 0 <? total_backlog
          then q ← py_truediv completed_backlog total_backlog;
               ret (PyFloat (py_round (py_mul q 100) 1))
          else ret (PyInt 0));
  ret {| total_viewers := total_viewers;
         active_viewers_24h := active_viewers;
         total_backlog_items := total_backlog;
         completed_backlog_items := completed_backlog;
         completion_rate := rate |}.

Definition empty_store : Store :=
  {| viewers := []; backlog := []; backlog_seq := 0; preferences := [] |}.

(** ** Definitions used in the statements *)

(** The three rows of the listing example, for any ids, texts and creation
    times. *)
Definition example_row (i : Z) (u d : string) (c : bool) (p t : Z) : BacklogRow :=
  {| b_id := i; b_username := u; b_description := d; b_priority := p;
     b_completed := c; b_created_at := t |}.

(** A store with one backlog row of another user and no viewer row at all. *)
Definition other_user_store : Store :=
  with_backlog [example_row 1 "bob" "write tests" false 3 10] empty_store.

(** The row [POST /viewers] inserts for a new username. *)
Definition upsert_new_row (clk : Clock) (viewer : ViewerInfo) : ViewerRow :=
  {| v_username := vi_username viewer;
     v_info := Some (vi_info viewer);
     v_last_active := py_now clk;
     v_task_count := vi_task_count viewer;
     v_created_at := db_now clk |}.

(** What [POST /viewers] makes of the row that has the username. *)
Definition upsert_update (clk : Clock) (viewer : ViewerInfo) (r : ViewerRow) : ViewerRow :=
  {| v_username := v_username r;
     v_info := Some (vi_info viewer);
     v_last_active := py_now clk;
     v_task_count := vi_task_count viewer;
     v_created_at := v_created_at r |}.


(** A store whose only viewer is alice, with one info field. *)
Definition alice_store : Store :=
  with_viewers
    [ {| v_username := "alice"; v_info := Some {[ "pronouns" := "she" ]};
         v_last_active := 5; v_task_count := 2; v_created_at := 1 |} ]
    empty_store.

Definition clock_a : Clock := {| py_now := 10; db_now := 11 |}.
Definition clock_b : Clock := {| py_now := 20; db_now := 21 |}.

(** The info map [PUT /viewers/{username}/info] writes back. *)
Definition merged_info (username field value : string) (s : Store) : gmap string string :=
  <[field := value]>
    match select_viewer username (viewers s) with
    | Some row => row_info row
    | None => ∅
    end.

(** A store with two backlog rows of alice, her viewer row and one
    preference. *)
Definition sample_store : Store :=
  {| viewers := viewers alice_store;
     backlog := [example_row 1 "alice" "stretch" false 3 100;
                 example_row 2 "alice" "drink water" true 4 101];
     backlog_seq := 2;
     preferences := [ {| p_key := "theme"; p_value := "dark"; p_updated_at := 50 |} ] |}.

(** Closes a decidable goal about concrete data by evaluating its decision
    procedure. *)
Ltac decide_by_computation :=
  apply (bool_decide_unpack _); vm_compute; exact I.

(** The row [POST /backlog] stores for [item]. *)
Definition inserted_row (clk : Clock) (item : BacklogItem) (s : Store) : BacklogRow :=
  {| b_id := next_rowid (backlog_seq s) (backlog s);
     b_username := bi_username item;
     b_description := bi_description item;
     b_priority := bi_priority item;
     b_completed := bi_completed item;
     b_created_at := db_now clk |}.

#[global] Instance spec_float_eq_dec : EqDecision spec_float.
Proof. solve_decision. Defined.


(** The check behind the completion rate of a backlog of [t] rows with [c] of
    them completed: the float returned is the one nearest to the decimal
    [n / 10], and [n / 10] is a nearest one-decimal value of [100 * c / t]. *)
Definition rate_rounded (c t : Z) : bool :=
  let x := py_mul (nearest_float c t) 100 in
  let n := decimal_digits x 1 in
  bool_decide (py_round x 1 = nearest_float n 10) &&
  bool_decide (Z.abs (2 * n * t - 2000 * c) ≤ t).

Definition rates_rounded_up_to (bound : nat) : bool :=
  forallb (λ t, forallb (λ c, rate_rounded c t) (seqZ 0 (t + 1))) (seqZ 1 (Z.of_nat bound)).

(** ** Listing the viewers *)

(** [ORDER BY last_active DESC]: row [a] may come before row [b]. *)
Definition viewers_order (a b : ViewerRow) : Prop :=
  v_last_active b ≤ v_last_active a.

#[global] Instance viewers_order_dec a b : Decision (viewers_order a b).
Proof. unfold viewers_order. apply _. Defined.

(** [SELECT * FROM viewers ORDER BY last_active DESC] with [fetchall]. *)
Definition select_viewers (vs : list ViewerRow) : list ViewerRow :=
  merge_sort viewers_order vs.

(** The [ViewerInfo(...)] built from a fetched row. *)
Definition viewer_response (row : ViewerRow) : ViewerInfo :=
  {| vi_username := v_username row;
     vi_info := row_info row;
     vi_task_count := v_task_count row |}.

(** [GET /viewers]. *)
Definition get_viewers : handler (list ViewerInfo) :=
  rows ← query (λ s, select_viewers (viewers s));
  ret (viewer_response <$> rows).

(** ** Constraints of the schema *)

(** [username TEXT PRIMARY KEY] on [viewers]. *)
Definition viewers_unique (s : Store) : Prop :=
  NoDup (v_username <$> viewers s).

(** [key TEXT PRIMARY KEY] on [preferences]. *)
Definition preferences_unique (s : Store) : Prop :=
  NoDup (p_key <$> preferences s).

(** [id INTEGER PRIMARY KEY AUTOINCREMENT] on [backlog]: ids are unique and
    none exceeds the sequence counter. *)
Definition backlog_wf (s : Store) : Prop :=
  NoDup (b_id <$> backlog s) ∧
  0 ≤ backlog_seq s ∧
  ∀ r, r ∈ backlog s → b_id r ≤ backlog_seq s.

(** Clocks and rows for the examples. *)
Definition clock_c : Clock := {| py_now := 30; db_now := 31 |}.

Definition water_item : BacklogItem :=
  {| bi_username := "alice"; bi_description := "refill"; bi_priority := 3;
     bi_completed := false |}.

(** * Properties *)

(** ** Running a handler *)

Lemma bind_query {A B} (f : Store → A) (k : A → handler B) (s : Store) :
  (x ← query f; k x) s = k (f s) s.
Proof. reflexivity. Qed.

Lemma bind_execute {B} (f : Store → Store * Z) (k : Z → handler B) (s : Store) :
  (n ← execute f; k n) s = k (f s).2 (f s).1.
Proof.
  unfold mbind, handler_bind, bind, execute. destruct (f s) as [s' n]. reflexivity.
Qed.

(** ** The backlog order *)

#[global] Instance backlog_order_trans : Transitive backlog_order.
Proof.
  intros a b c. unfold backlog_order.
  destruct (b_completed a), (b_completed b), (b_completed c); simpl; intros Hab Hbc;
    try lia; right; (split; [reflexivity |]); lia.
Qed.

#[global] Instance backlog_order_total : Total backlog_order.
Proof.
  intros a b. unfold backlog_order.
  destruct (b_completed a), (b_completed b); simpl;
    destruct (Z.lt_trichotomy (b_priority a) (b_priority b)) as [Hp | [Hp | Hp]];
    destruct (Z.le_ge_cases (b_created_at a) (b_created_at b));
    intuition lia.
Qed.



Lemma get_backlog_run (username : string) (s : Store) :
  get_backlog username s = (s, Ok (backlog_response <$> select_backlog username (backlog s))).
Proof. reflexivity. Qed.



Lemma select_backlog_none (username : string) (bs : list BacklogRow) :
  (∀ r, r ∈ bs → b_username r ≠ username) → select_backlog username bs = [].
Proof.
  intros Hno. unfold select_backlog.
  assert (Hf : filter (λ r, b_username r = username) bs = []).
  { induction bs as [| r bs IH]; [reflexivity |].
    rewrite filter_cons_False.
    - apply IH. intros r' Hr'. apply Hno. by apply list_elem_of_further.
    - apply Hno. apply list_elem_of_here. }
  rewrite Hf. reflexivity.
Qed.

(** C10.  Listing the backlog of any username succeeds, whatever the viewers
    table holds; when no backlog row has the username, the list is empty. *)
Theorem get_backlog_no_rows (username : string) (s : Store) :
  (∃ items, get_backlog username s = (s, Ok items)) ∧
  ((∀ r, r ∈ backlog s → b_username r ≠ username) →
   get_backlog username s = (s, Ok [])).
Proof.
  split.
  - eexists. apply get_backlog_run.
  - intros Hno. rewrite get_backlog_run, select_backlog_none by assumption.
    reflexivity.
Qed.

Lemma get_backlog_no_rows_witness :
  select_viewer "alice" (viewers other_user_store) = None ∧
  get_backlog "alice" other_user_store = (other_user_store, Ok []).
Proof.
  split; [reflexivity |].
  apply (get_backlog_no_rows "alice" other_user_store).
  intros r Hr. apply list_elem_of_singleton in Hr. subst r. discriminate.
Defined.

(** ** Rows looked up by key *)

Section keyed.
Context {A K : Type} `{EqDecision K} (key : A → K).

Lemma find_key_None (k : K) (l : list A) :
  find (λ r, bool_decide (key r = k)) l = None ↔ k ∉ key <$> l.
Proof.
  induction l as [| r l IH]; simpl.
  - split; [intros _; apply not_elem_of_nil | reflexivity].
  - rewrite not_elem_of_cons. case_bool_decide as Hr.
    + split; [discriminate | intros [Hne _]; congruence].
    + rewrite IH. split; [intros Hn; split; [congruence | exact Hn] | intros [_ Hn]; exact Hn].
Qed.

Lemma find_key_Some (k : K) (l : list A) (r : A) :
  find (λ r, bool_decide (key r = k)) l = Some r → r ∈ l ∧ key r = k.
Proof.
  induction l as [| r0 l IH]; simpl; [discriminate |].
  case_bool_decide as Hr.
  - intros [= <-]. split; [apply list_elem_of_here | exact Hr].
  - intros Hf. destruct (IH Hf) as [Hin Hk]. split; [by apply list_elem_of_further | exact Hk].
Qed.

Lemma find_key_is_Some (k : K) (l : list A) :
  k ∈ key <$> l → ∃ r, find (λ r, bool_decide (key r = k)) l = Some r.
Proof.
  intros Hin. destruct (find _ l) as [r |] eqn:Hf; [by exists r |].
  apply find_key_None in Hf. contradiction.
Qed.


Lemma filter_key_present (k : K) (l : list A) :
  k ∈ key <$> l → filter (λ r, key r = k) l ≠ [].
Proof.
  intros Hin Hnil. apply list_elem_of_fmap in Hin as (r & Hk & Hr).
  assert (Hf : r ∈ filter (λ r, key r = k) l) by (apply list_elem_of_filter; done).
  rewrite Hnil in Hf. by apply not_elem_of_nil in Hf.
Qed.


Lemma fmap_at_key_absent (f : A → A) (k : K) (l : list A) :
  k ∉ key <$> l → (λ r, if bool_decide (key r = k) then f r else r) <$> l = l.
Proof.
  induction l as [| r l IH]; [reflexivity |]. simpl.
  rewrite not_elem_of_cons. intros [Hne Hl].
  rewrite bool_decide_eq_false_2 by congruence. f_equal. by apply IH.
Qed.
End keyed.

(** ** The viewers table *)

Lemma find_app_first {A} (f : A → bool) (l1 l2 : list A) :
  find f (l1 ++ l2) = match find f l1 with Some x => Some x | None => find f l2 end.
Proof.
  induction l1 as [| x l1 IH]; simpl; [reflexivity |].
  destruct (f x); [reflexivity | exact IH].
Qed.

Lemma select_viewer_None (u : string) (vs : list ViewerRow) :
  select_viewer u vs = None ↔ u ∉ v_username <$> vs.
Proof. apply (find_key_None v_username). Qed.

Lemma select_viewer_Some (u : string) (vs : list ViewerRow) (r : ViewerRow) :
  select_viewer u vs = Some r → r ∈ vs ∧ v_username r = u.
Proof. apply (find_key_Some v_username). Qed.

Lemma select_viewer_is_Some (u : string) (vs : list ViewerRow) :
  u ∈ v_username <$> vs → ∃ r, select_viewer u vs = Some r.
Proof. apply (find_key_is_Some v_username). Qed.

Section insert_or_update.
Variables (u : string) (new : ViewerRow) (upd : ViewerRow → ViewerRow).
Hypothesis new_username : v_username new = u.
Hypothesis upd_username : ∀ r, v_username (upd r) = v_username r.

Let rewrite_row (r : ViewerRow) : ViewerRow :=
  if bool_decide (v_username r = u) then upd r else r.

Lemma rewrite_row_username (vs : list ViewerRow) :
  v_username <$> (rewrite_row <$> vs) = v_username <$> vs.
Proof.
  rewrite <- list_fmap_compose. apply list_fmap_ext. intros i r _. simpl.
  unfold rewrite_row. case_bool_decide; [apply upd_username | reflexivity].
Qed.

Lemma rewrite_row_eq (r : ViewerRow) : v_username r = u → rewrite_row r = upd r.
Proof. intros Hr. unfold rewrite_row. by rewrite bool_decide_eq_true_2. Qed.

Lemma rewrite_row_ne (r : ViewerRow) : v_username r ≠ u → rewrite_row r = r.
Proof. intros Hr. unfold rewrite_row. by rewrite bool_decide_eq_false_2. Qed.

Lemma select_rewrite_row_eq (vs : list ViewerRow) :
  select_viewer u (rewrite_row <$> vs) = upd <$> select_viewer u vs.
Proof.
  unfold select_viewer. induction vs as [| r vs IH]; simpl; [reflexivity |].
  destruct (decide (v_username r = u)) as [Hr | Hr].
  - rewrite (rewrite_row_eq r Hr).
    rewrite !bool_decide_eq_true_2 by (rewrite ?upd_username; exact Hr). reflexivity.
  - rewrite (rewrite_row_ne r Hr).
    rewrite !bool_decide_eq_false_2 by exact Hr. exact IH.
Qed.

Lemma select_rewrite_row_ne (u' : string) (vs : list ViewerRow) :
  u' ≠ u → select_viewer u' (rewrite_row <$> vs) = select_viewer u' vs.
Proof.
  intros Hne. unfold select_viewer. induction vs as [| r vs IH]; simpl; [reflexivity |].
  destruct (decide (v_username r = u)) as [Hr | Hr].
  - rewrite (rewrite_row_eq r Hr).
    rewrite !bool_decide_eq_false_2 by (rewrite ?upd_username; congruence). exact IH.
  - rewrite (rewrite_row_ne r Hr). destruct (bool_decide (v_username r = u')); [reflexivity | exact IH].
Qed.

Lemma select_app_new (u' : string) (vs : list ViewerRow) :
  select_viewer u' (vs ++ [new]) =
  match select_viewer u' vs with
  | Some r => Some r
  | None => if bool_decide (u = u') then Some new else None
  end.
Proof.
  unfold select_viewer. rewrite find_app_first. destruct (find _ vs); [reflexivity |].
  simpl. rewrite new_username. reflexivity.
Qed.

(** The row of [u] after the statement: the old one rewritten, or the new
    one. *)
Lemma select_insert_or_update_eq (vs : list ViewerRow) :
  select_viewer u (insert_or_update_viewer u new upd vs) =
  Some (match select_viewer u vs with Some r => upd r | None => new end).
Proof.
  unfold insert_or_update_viewer. case_bool_decide as Hin.
  - fold rewrite_row. rewrite select_rewrite_row_eq.
    destruct (select_viewer_is_Some u vs Hin) as [r ->]. reflexivity.
  - rewrite select_app_new. apply select_viewer_None in Hin. rewrite Hin.
    rewrite bool_decide_eq_true_2 by reflexivity. reflexivity.
Qed.

(** The rows of the other usernames are as before. *)
Lemma select_insert_or_update_ne (u' : string) (vs : list ViewerRow) :
  u' ≠ u → select_viewer u' (insert_or_update_viewer u new upd vs) = select_viewer u' vs.
Proof.
  intros Hne. unfold insert_or_update_viewer. case_bool_decide as Hin.
  - fold rewrite_row. by apply select_rewrite_row_ne.
  - rewrite select_app_new. destruct (select_viewer u' vs); [reflexivity |].
    rewrite bool_decide_eq_false_2 by congruence. reflexivity.
Qed.

Lemma insert_or_update_usernames (vs : list ViewerRow) :
  v_username <$> insert_or_update_viewer u new upd vs =
  if bool_decide (u ∈ v_username <$> vs) then v_username <$> vs
  else (v_username <$> vs) ++ [u].
Proof.
  unfold insert_or_update_viewer. case_bool_decide as Hin.
  - fold rewrite_row. apply rewrite_row_username.
  - rewrite fmap_app. simpl. rewrite new_username. reflexivity.
Qed.


(** The PRIMARY KEY constraint of [viewers] is kept. *)
Lemma insert_or_update_NoDup (vs : list ViewerRow) :
  NoDup (v_username <$> vs) →
  NoDup (v_username <$> insert_or_update_viewer u new upd vs).
Proof.
  intros Hnd. rewrite insert_or_update_usernames. case_bool_decide as Hin; [exact Hnd |].
  apply NoDup_app. split; [exact Hnd |]. split; [| apply NoDup_singleton].
  intros x Hx Hx'. apply list_elem_of_singleton in Hx'. subst x. contradiction.
Qed.


End insert_or_update.

(** ** The full viewer upsert *)

Lemma upsert_viewer_run (clk : Clock) (viewer : ViewerInfo) (s : Store) :
  upsert_viewer clk viewer s =
  (with_viewers
     (insert_or_update_viewer (vi_username viewer) (upsert_new_row clk viewer)
        (upsert_update clk viewer) (viewers s)) s,
   Ok viewer).
Proof. reflexivity. Qed.

Lemma with_viewers_same (s : Store) : with_viewers (viewers s) s = s.
Proof. by destruct s. Qed.


Lemma viewers_with_viewers (vs : list ViewerRow) (s : Store) :
  viewers (with_viewers vs s) = vs.
Proof. reflexivity. Qed.








(** ** The single-field info set *)

Lemma set_viewer_info_run (clk : Clock) (u f v : string) (s : Store) :
  set_viewer_info clk u f v s =
  (with_viewers
     (insert_or_update_viewer u
        {| v_username := u; v_info := Some (merged_info u f v s);
           v_last_active := py_now clk; v_task_count := 0; v_created_at := db_now clk |}
        (λ r, {| v_username := v_username r; v_info := Some (merged_info u f v s);
                 v_last_active := py_now clk; v_task_count := v_task_count r;
                 v_created_at := v_created_at r |})
        (viewers s)) s,
   Ok {| fr_success := true; fr_field := f; fr_value := v |}).
Proof. reflexivity. Qed.

(** The row of [u] after the single-field set. *)
Lemma set_viewer_info_row (clk : Clock) (u f v : string) (s : Store) :
  select_viewer u (viewers (final_store (set_viewer_info clk u f v s))) =
  Some {| v_username := u;
          v_info := Some (merged_info u f v s);
          v_last_active := py_now clk;
          v_task_count := from_option v_task_count 0 (select_viewer u (viewers s));
          v_created_at := from_option v_created_at (db_now clk) (select_viewer u (viewers s)) |}.
Proof.
  rewrite set_viewer_info_run. unfold final_store. simpl fst.
  rewrite viewers_with_viewers, select_insert_or_update_eq by done.
  destruct (select_viewer u (viewers s)) as [r |] eqn:Hsel; [| reflexivity].
  apply select_viewer_Some in Hsel as [_ Hu]. simpl. by rewrite Hu.
Qed.

Lemma get_viewer_run (u : string) (s : Store) :
  get_viewer u s =
  (s, match select_viewer u (viewers s) with
      | Some row => Ok {| vi_username := v_username row; vi_info := row_info row;
                          vi_task_count := v_task_count row |}
      | None => HTTPException 404 "Viewer not found"
      end).
Proof.
  unfold get_viewer. rewrite bind_query. by destruct (select_viewer u (viewers s)).
Qed.

(** C2.  The single-field info set answers with the field and value, leaves
    the other tables and the rows of the other usernames as they are, and
    for the row of the username: an existing row gets the one key added or
    overwritten, keeps every other key, its task count and its creation
    time, and has its last-active time refreshed; without a row, the viewer
    is created with that field alone, and a second call with another field
    gives a viewer with both fields and no other. *)
Theorem set_viewer_info_merges_one_field (clk : Clock) (u f v : string) (s : Store) :
  let r := set_viewer_info clk u f v s in
  let s' := final_store r in
  response r = Ok {| fr_success := true; fr_field := f; fr_value := v |} ∧
  backlog s' = backlog s ∧ backlog_seq s' = backlog_seq s ∧
  preferences s' = preferences s ∧
  (∀ u', u' ≠ u → select_viewer u' (viewers s') = select_viewer u' (viewers s)) ∧
  match select_viewer u (viewers s) with
  | Some old =>
      ∃ new, select_viewer u (viewers s') = Some new ∧
        row_info new !! f = Some v ∧
        (∀ k, k ≠ f → row_info new !! k = row_info old !! k) ∧
        v_last_active new = py_now clk ∧
        v_task_count new = v_task_count old ∧
        v_created_at new = v_created_at old
  | None =>
      select_viewer u (viewers s') =
        Some {| v_username := u; v_info := Some {[ f := v ]};
                v_last_active := py_now clk; v_task_count := 0;
                v_created_at := db_now clk |} ∧
      get_viewer u s' =
        (s', Ok {| vi_username := u; vi_info := {[ f := v ]}; vi_task_count := 0 |}) ∧
      ∀ (clk2 : Clock) (f2 v2 : string), f2 ≠ f →
        let s'' := final_store (set_viewer_info clk2 u f2 v2 s') in
        ∃ info, get_viewer u s'' =
                  (s'', Ok {| vi_username := u; vi_info := info; vi_task_count := 0 |}) ∧
                info !! f = Some v ∧ info !! f2 = Some v2 ∧
                ∀ k, k ≠ f → k ≠ f2 → info !! k = None
  end.
Proof.
  intros r s'.
  assert (Hrow := set_viewer_info_row clk u f v s). fold r s' in Hrow.
  split; [reflexivity |]. split; [reflexivity |]. split; [reflexivity |].
  split; [reflexivity |].
  split.
  { intros u' Hne. subst s' r. rewrite set_viewer_info_run. unfold final_store. simpl fst.
    rewrite viewers_with_viewers. by apply select_insert_or_update_ne. }
  clearbody s'. clear r. unfold merged_info in Hrow.
  destruct (select_viewer u (viewers s)) as [old |] eqn:Hsel; simpl in Hrow.
  - eexists. split; [exact Hrow |]. unfold row_info at 1 2. simpl.
    split; [apply lookup_insert_eq |].
    split; [intros k Hk; by apply lookup_insert_ne |]. done.
  - rewrite insert_empty in Hrow.
    split; [exact Hrow |].
    split; [rewrite get_viewer_run, Hrow; reflexivity |].
    intros clk2 f2 v2 Hf2 s''.
    assert (Hrow2 := set_viewer_info_row clk2 u f2 v2 s'). fold s'' in Hrow2.
    clearbody s''. unfold merged_info in Hrow2. rewrite Hrow in Hrow2. simpl in Hrow2.
    eexists. split; [rewrite get_viewer_run, Hrow2; reflexivity |].
    unfold row_info. simpl.
    split; [rewrite lookup_insert_ne by done; apply lookup_singleton_eq |].
    split; [apply lookup_insert_eq |].
    intros k Hk Hk2. rewrite lookup_insert_ne by done. by apply lookup_singleton_ne.
Qed.

Lemma set_viewer_info_merges_one_field_witness :
  ∃ new,
    select_viewer "alice"
      (viewers (final_store (set_viewer_info clock_a "alice" "city" "Oslo" alice_store)))
      = Some new ∧
    row_info new !! "city" = Some "Oslo" ∧
    (∀ k, k ≠ "city" → row_info new !! k = ({[ "pronouns" := "she" ]} : gmap string string) !! k) ∧
    v_last_active new = 10 ∧ v_task_count new = 2 ∧ v_created_at new = 1.
Proof.
  destruct (set_viewer_info_merges_one_field clock_a "alice" "city" "Oslo" alice_store)
    as (_ & _ & _ & _ & _ & Hrow).
  exact Hrow.
Defined.

(** ** The backlog table *)



Lemma toggle_backlog_complete_run (item_id : Z) (s : Store) :
  toggle_backlog_complete item_id s =
  ((update_toggle item_id s).1,
   if rowcount item_id (backlog s) =? 0 then HTTPException 404 "Item not found"
   else Ok {| ir_success := true; ir_id := item_id |}).
Proof.
  unfold toggle_backlog_complete. rewrite bind_execute. simpl.
  by destruct (rowcount item_id (backlog s) =? 0).
Qed.

Lemma delete_backlog_item_run (item_id : Z) (s : Store) :
  delete_backlog_item item_id s =
  ((delete_backlog item_id s).1,
   if rowcount item_id (backlog s) =? 0 then HTTPException 404 "Item not found"
   else Ok {| ir_success := true; ir_id := item_id |}).
Proof.
  unfold delete_backlog_item. rewrite bind_execute. simpl.
  by destruct (rowcount item_id (backlog s) =? 0).
Qed.

Lemma get_preference_run (k : string) (s : Store) :
  get_preference k s =
  (s, match select_preference k (preferences s) with
      | Some row => Ok {| pf_key := k; pf_value := p_value row |}
      | None => HTTPException 404 "Preference not found"
      end).
Proof.
  unfold get_preference. rewrite bind_query. by destruct (select_preference k (preferences s)).
Qed.



(** ** Toggling completion *)

Lemma toggle_row_involutive (r : BacklogRow) : toggle_row (toggle_row r) = r.
Proof. destruct r. unfold toggle_row. simpl. by rewrite negb_involutive. Qed.

Lemma toggle_row_id (r : BacklogRow) : b_id (toggle_row r) = b_id r.
Proof. reflexivity. Qed.

Lemma toggled_ids (item_id : Z) (bs : list BacklogRow) :
  b_id <$> ((λ r, if bool_decide (b_id r = item_id) then toggle_row r else r) <$> bs)
  = b_id <$> bs.
Proof.
  rewrite <- list_fmap_compose. apply list_fmap_ext. intros i r _. simpl.
  by case_bool_decide.
Qed.

Lemma toggled_twice (item_id : Z) (bs : list BacklogRow) :
  (λ r, if bool_decide (b_id r = item_id) then toggle_row r else r) <$>
    ((λ r, if bool_decide (b_id r = item_id) then toggle_row r else r) <$> bs) = bs.
Proof.
  rewrite <- list_fmap_compose. rewrite <- (list_fmap_id bs) at 2.
  apply list_fmap_ext. intros i r _. simpl.
  destruct (decide (b_id r = item_id)) as [Hr | Hr].
  - rewrite (bool_decide_eq_true_2 _ Hr).
    rewrite bool_decide_eq_true_2 by exact Hr. apply toggle_row_involutive.
  - rewrite (bool_decide_eq_false_2 _ Hr). by rewrite bool_decide_eq_false_2.
Qed.

(** C6.  Toggling an item twice gives back the store it started from; one
    toggle negates the completed flag of the rows with that id, in place, and
    touches nothing else; for an id that is present both calls answer with
    the success flag and the id alone. *)
Theorem toggle_backlog_complete_involution (item_id : Z) (s : Store) :
  let r1 := toggle_backlog_complete item_id s in
  let r2 := toggle_backlog_complete item_id (final_store r1) in
  final_store r2 = s ∧
  viewers (final_store r1) = viewers s ∧
  preferences (final_store r1) = preferences s ∧
  backlog_seq (final_store r1) = backlog_seq s ∧
  length (backlog (final_store r1)) = length (backlog s) ∧
  (∀ i row, backlog s !! i = Some row →
     ∃ row', backlog (final_store r1) !! i = Some row' ∧
       b_id row' = b_id row ∧ b_username row' = b_username row ∧
       b_description row' = b_description row ∧ b_priority row' = b_priority row ∧
       b_created_at row' = b_created_at row ∧
       b_completed row' =
         if bool_decide (b_id row = item_id) then negb (b_completed row)
         else b_completed row) ∧
  (item_id ∈ b_id <$> backlog s →
     response r1 = Ok {| ir_success := true; ir_id := item_id |} ∧
     response r2 = Ok {| ir_success := true; ir_id := item_id |}).
Proof.
  intros r1 r2. subst r1 r2. rewrite !toggle_backlog_complete_run.
  unfold final_store, response, update_toggle. simpl.
  split; [| split; [| split; [| split; [| split; [| split]]]]]; try reflexivity.
  - unfold with_backlog. simpl. rewrite toggled_twice. by destruct s.
  - by rewrite length_fmap.
  - intros i row Hi. rewrite list_lookup_fmap, Hi. simpl.
    eexists. split; [reflexivity |]. by case_bool_decide.
  - intros Hin. unfold rowcount. rewrite <- (toggled_ids item_id (backlog s)) in Hin.
    pose proof (filter_key_present b_id item_id _ Hin) as Hne2.
    rewrite toggled_ids in Hin.
    pose proof (filter_key_present b_id item_id _ Hin) as Hne1.
    split.
    + destruct (filter _ (backlog s)); [done | reflexivity].
    + destruct (filter _ (_ <$> backlog s)); [done | reflexivity].
Qed.

Lemma toggle_backlog_complete_involution_witness :
  final_store (toggle_backlog_complete 1 (final_store (toggle_backlog_complete 1 sample_store)))
    = sample_store ∧
  backlog (final_store (toggle_backlog_complete 1 sample_store)) =
    [example_row 1 "alice" "stretch" true 3 100;
     example_row 2 "alice" "drink water" true 4 101] ∧
  response (toggle_backlog_complete 1 sample_store) =
    Ok {| ir_success := true; ir_id := 1 |}.
Proof.
  destruct (toggle_backlog_complete_involution 1 sample_store)
    as (Htwice & _ & _ & _ & _ & _ & Hresp).
  split; [exact Htwice |]. split; [reflexivity |].
  apply Hresp. decide_by_computation.
Defined.

(** ** Adding an item *)

Lemma max_id_bound (bs : list BacklogRow) (r : BacklogRow) :
  r ∈ bs → b_id r ≤ foldr Z.max 0 (b_id <$> bs).
Proof.
  induction bs as [| r0 bs IH]; [intros Hr; by apply not_elem_of_nil in Hr |].
  rewrite elem_of_cons. rewrite fmap_cons. simpl foldr. intros [-> | Hr].
  - apply Z.le_max_l.
  - etrans; [apply (IH Hr) | apply Z.le_max_r].
Qed.

(** AUTOINCREMENT never reuses an id of the table. *)
Lemma next_rowid_fresh (seq : Z) (bs : list BacklogRow) :
  next_rowid seq bs ∉ b_id <$> bs.
Proof.
  intros Hin. apply list_elem_of_fmap in Hin as (r & Hid & Hr).
  apply max_id_bound in Hr. unfold next_rowid in Hid. lia.
Qed.


(** ** Rounding *)

Lemma round_half_even_nearest (n d : Z) :
  0 < d → Z.abs (2 * n - 2 * d * round_half_even n d) ≤ d.
Proof.
  intros Hd. unfold round_half_even.
  pose proof (Z.div_mod n d) as Hdiv. pose proof (Z.mod_pos_bound n d Hd) as Hmod.
  destruct (Z.compare_spec (2 * (n mod d)) d) as [Heq | Hlt | Hgt];
    [destruct (Z.even (n / d)) |..]; nia.
Qed.

(** [decimal_digits] is a nearest integer to the exact value of [x] scaled
    by [10 ^ ndigits]. *)
Lemma decimal_digits_nearest (s : bool) (m : positive) (e ndigits : Z) :
  e < 0 →
  Z.abs (2 * (cond_Zopp s (Zpos m) * 10 ^ ndigits)
         - 2 * 2 ^ (- e) * decimal_digits (S754_finite s m e) ndigits) ≤ 2 ^ (- e).
Proof.
  intros He. unfold decimal_digits.
  destruct (Z.leb_spec 0 e) as [Hle | _]; [lia |].
  apply round_half_even_nearest. apply Z.pow_pos_nonneg; lia.
Qed.

(** What the check over all backlogs of at most [bound] rows gives for one
    of them. *)
Lemma rates_rounded_up_to_elim (bound : nat) (c t : Z) :
  rates_rounded_up_to bound = true →
  0 ≤ c ≤ t → 0 < t ≤ Z.of_nat bound → rate_rounded c t = true.
Proof.
  unfold rates_rounded_up_to. intros Hall Hc Ht.
  rewrite forallb_forall in Hall.
  assert (Hin : In t (seqZ 1 (Z.of_nat bound))).
  { apply list_elem_of_In, elem_of_seqZ. lia. }
  specialize (Hall t Hin). rewrite forallb_forall in Hall.
  apply Hall. apply list_elem_of_In, elem_of_seqZ. lia.
Qed.

Lemma rates_rounded_200 : rates_rounded_up_to 200 = true.
Proof. vm_compute. reflexivity. Qed.

Lemma rate_rounded_up_to_200 (c t : Z) :
  0 ≤ c ≤ t → 0 < t ≤ 200 → rate_rounded c t = true.
Proof.
  intros Hc Ht. apply (rates_rounded_up_to_elim 200 c t rates_rounded_200 Hc).
  exact Ht.
Qed.

Lemma count_completed_le (s : Store) : 0 ≤ count_completed s ≤ count_backlog s.
Proof.
  unfold count_completed, count_backlog.
  pose proof (length_filter (λ r, b_completed r = true) (backlog s)). lia.
Qed.

Lemma get_stats_summary_run (clk : Clock) (s : Store) :
  get_stats_summary clk s =
  (s, Ok {| total_viewers := count_viewers s;
            active_viewers_24h := count_active_viewers clk s;
            total_backlog_items := count_backlog s;
            completed_backlog_items := count_completed s;
            completion_rate :=
              if 0 <? count_backlog s
              then PyFloat (py_round
                     (py_mul (nearest_float (count_completed s) (count_backlog s)) 100) 1)
              else PyInt 0 |}).
Proof.
  unfold get_stats_summary. rewrite !bind_query.
  destruct (Z.ltb_spec 0 (count_backlog s)) as [Hpos | Hzero]; [| reflexivity].
  unfold py_truediv.
  destruct (Z.eqb_spec (count_backlog s) 0) as [Heq | _]; [lia |].
  destruct (Z.ltb_spec 0 (count_backlog s)) as [_ | Hneg]; [reflexivity | lia].
Qed.


(** * Further properties of the endpoints *)

(** ** Listing the viewers *)

#[global] Instance viewers_order_trans : Transitive viewers_order.
Proof. intros a b c. unfold viewers_order. lia. Qed.

#[global] Instance viewers_order_total : Total viewers_order.
Proof. intros a b. unfold viewers_order. lia. Qed.

Lemma get_viewers_run (s : Store) :
  get_viewers s = (s, Ok (viewer_response <$> select_viewers (viewers s))).
Proof. reflexivity. Qed.









(** ** Composing single-field sets *)

(** What [GET /viewers/{username}] returns after a single-field set. *)
Lemma set_viewer_info_then_get (clk : Clock) (u f v : string) (s : Store) :
  response (get_viewer u (final_store (set_viewer_info clk u f v s))) =
  Ok {| vi_username := u;
        vi_info := merged_info u f v s;
        vi_task_count := from_option v_task_count 0 (select_viewer u (viewers s)) |}.
Proof.
  rewrite get_viewer_run, set_viewer_info_row. reflexivity.
Qed.

Lemma merged_info_after_set (clk : Clock) (u f v f' v' : string) (s : Store) :
  merged_info u f' v' (final_store (set_viewer_info clk u f v s)) =
  <[f' := v']> (merged_info u f v s).
Proof. unfold merged_info at 1. by rewrite set_viewer_info_row. Qed.

Lemma task_count_after_set (clk : Clock) (u f v : string) (s : Store) :
  from_option v_task_count 0
    (select_viewer u (viewers (final_store (set_viewer_info clk u f v s)))) =
  from_option v_task_count 0 (select_viewer u (viewers s)).
Proof. by rewrite set_viewer_info_row. Qed.

(** X5.  Single-field sets compose as dictionary updates: setting one field
    twice leaves what setting the second value alone would, and sets of two
    different fields give the same viewer in either order. *)
Theorem set_viewer_info_compose (clk1 clk2 clk3 clk4 : Clock)
    (u f1 v1 f2 v2 : string) (s : Store) :
  response (get_viewer u
    (final_store (set_viewer_info clk2 u f1 v2
       (final_store (set_viewer_info clk1 u f1 v1 s)))))
  = response (get_viewer u (final_store (set_viewer_info clk3 u f1 v2 s))) ∧
  (f1 ≠ f2 →
   response (get_viewer u
     (final_store (set_viewer_info clk2 u f2 v2
        (final_store (set_viewer_info clk1 u f1 v1 s)))))
   = response (get_viewer u
     (final_store (set_viewer_info clk4 u f1 v1
        (final_store (set_viewer_info clk3 u f2 v2 s)))))).
Proof.
  rewrite !set_viewer_info_then_get, !merged_info_after_set, !task_count_after_set.
  split.
  - unfold merged_info. by rewrite insert_insert_eq.
  - intros Hne. unfold merged_info. by rewrite insert_insert_ne.
Qed.

Lemma set_viewer_info_compose_witness :
  response (get_viewer "alice"
    (final_store (set_viewer_info clock_b "alice" "team" "red"
       (final_store (set_viewer_info clock_a "alice" "city" "Oslo" alice_store)))))
  = response (get_viewer "alice"
    (final_store (set_viewer_info clock_b "alice" "city" "Oslo"
       (final_store (set_viewer_info clock_a "alice" "team" "red" alice_store))))).
Proof.
  apply (set_viewer_info_compose clock_a clock_b clock_a clock_b
           "alice" "city" "Oslo" "team" "red" alice_store).
  discriminate.
Defined.

(** ** The primary key of [viewers] *)

(** X6.  Usernames stay unique: the key holds in the empty store, both
    writers of [viewers] keep it, and [GET /viewers] then lists every
    username once. *)
Theorem viewers_unique_invariant (clk : Clock) (viewer : ViewerInfo)
    (u f v : string) (s : Store) :
  viewers_unique empty_store ∧
  (viewers_unique s →
   viewers_unique (final_store (upsert_viewer clk viewer s)) ∧
   viewers_unique (final_store (set_viewer_info clk u f v s)) ∧
   ∃ items, response (get_viewers s) = Ok items ∧ NoDup (vi_username <$> items)).
Proof.
  split; [apply NoDup_nil_2 |].
  unfold viewers_unique. intros Hnd.
  split; [| split].
  - rewrite upsert_viewer_run. unfold final_store. simpl fst.
    rewrite viewers_with_viewers. by apply insert_or_update_NoDup.
  - rewrite set_viewer_info_run. unfold final_store. simpl fst.
    rewrite viewers_with_viewers. by apply insert_or_update_NoDup.
  - rewrite get_viewers_run. eexists. split; [reflexivity |].
    rewrite <- list_fmap_compose.
    assert (Hperm : select_viewers (viewers s) ≡ₚ viewers s)
      by apply merge_sort_Permutation.
    change (vi_username ∘ viewer_response) with v_username.
    by rewrite Hperm.
Qed.

Lemma viewers_unique_invariant_witness :
  viewers_unique (final_store (upsert_viewer clock_a
     {| vi_username := "bob"; vi_info := ∅; vi_task_count := 0 |} alice_store)) ∧
  viewers_unique (final_store (set_viewer_info clock_a "alice" "city" "Oslo" alice_store)).
Proof.
  destruct (viewers_unique_invariant clock_a
              {| vi_username := "bob"; vi_info := ∅; vi_task_count := 0 |}
              "alice" "city" "Oslo" alice_store) as [_ Hkeep].
  destruct Hkeep as (Hup & Hset & _); [apply NoDup_singleton |].
  split; [exact Hup | exact Hset].
Defined.

(** ** Preferences *)

Lemma set_preference_run (clk : Clock) (pref : Preference) (s : Store) :
  set_preference clk pref s =
  (with_preferences (insert_or_update_preference clk pref (preferences s)) s,
   Ok {| kr_success := true; kr_key := pf_key pref |}).
Proof. reflexivity. Qed.

Lemma preferences_with_preferences (ps : list PreferenceRow) (s : Store) :
  preferences (with_preferences ps s) = ps.
Proof. reflexivity. Qed.

Lemma select_upserted_preference (clk : Clock) (pref : Preference)
    (ps : list PreferenceRow) :
  select_preference (pf_key pref) (insert_or_update_preference clk pref ps) =
  Some {| p_key := pf_key pref; p_value := pf_value pref; p_updated_at := py_now clk |}.
Proof.
  unfold insert_or_update_preference, select_preference. case_bool_decide as Hin.
  - induction ps as [| r ps IH]; [by apply not_elem_of_nil in Hin |].
    rewrite fmap_cons in Hin. rewrite fmap_cons. simpl find.
    destruct (decide (p_key r = pf_key pref)) as [Hr | Hr].
    + rewrite (bool_decide_eq_true_2 _ Hr). simpl.
      by rewrite bool_decide_eq_true_2.
    + rewrite (bool_decide_eq_false_2 _ Hr). rewrite (bool_decide_eq_false_2 _ Hr).
      apply IH. apply elem_of_cons in Hin as [Hin | Hin]; [congruence | exact Hin].
  - rewrite find_app_first. apply (find_key_None p_key) in Hin. rewrite Hin.
    simpl. by rewrite bool_decide_eq_true_2.
Qed.

Lemma select_other_preference (clk : Clock) (pref : Preference)
    (ps : list PreferenceRow) (k : string) :
  k ≠ pf_key pref →
  select_preference k (insert_or_update_preference clk pref ps) = select_preference k ps.
Proof.
  intros Hne. unfold insert_or_update_preference, select_preference.
  case_bool_decide as Hin.
  - clear Hin. induction ps as [| r ps IH]; [reflexivity |].
    rewrite fmap_cons. simpl find.
    destruct (decide (p_key r = pf_key pref)) as [Hr | Hr].
    + rewrite (bool_decide_eq_true_2 _ Hr). simpl.
      rewrite !bool_decide_eq_false_2 by congruence. exact IH.
    + rewrite (bool_decide_eq_false_2 _ Hr).
      destruct (bool_decide (p_key r = k)); [reflexivity | exact IH].
  - rewrite find_app_first. destruct (find _ ps); [reflexivity |].
    simpl. by rewrite bool_decide_eq_false_2.
Qed.

Lemma upserted_preference_keys (clk : Clock) (pref : Preference)
    (ps : list PreferenceRow) :
  p_key <$> insert_or_update_preference clk pref ps =
  if bool_decide (pf_key pref ∈ p_key <$> ps) then p_key <$> ps
  else (p_key <$> ps) ++ [pf_key pref].
Proof.
  unfold insert_or_update_preference. case_bool_decide as Hin.
  - rewrite <- list_fmap_compose. apply list_fmap_ext. intros i r _. simpl.
    by case_bool_decide.
  - by rewrite fmap_app.
Qed.

(** X7.  [POST /preferences] always succeeds; the key then reads back with
    the value just set, every other key reads as before, the keys stay
    unique and the other tables are untouched. *)
Theorem set_preference_then_get (clk : Clock) (pref : Preference) (s : Store) :
  let r := set_preference clk pref s in
  let s' := final_store r in
  response r = Ok {| kr_success := true; kr_key := pf_key pref |} ∧
  get_preference (pf_key pref) s' = (s', Ok pref) ∧
  (∀ k, k ≠ pf_key pref →
        response (get_preference k s') = response (get_preference k s)) ∧
  (preferences_unique s → preferences_unique s') ∧
  viewers s' = viewers s ∧ backlog s' = backlog s ∧ backlog_seq s' = backlog_seq s.
Proof.
  intros r s'. subst s' r. rewrite set_preference_run. unfold final_store, response.
  simpl fst. simpl snd.
  split; [reflexivity |].
  split.
  { rewrite get_preference_run. unfold with_preferences at 2. simpl preferences.
    rewrite select_upserted_preference. by destruct pref. }
  split.
  { intros k Hk. rewrite !get_preference_run. simpl snd.
    unfold with_preferences. simpl preferences. by rewrite select_other_preference. }
  split; [| done].
  unfold preferences_unique, with_preferences. simpl preferences.
  rewrite upserted_preference_keys.
  intros Hnd. case_bool_decide as Hin; [exact Hnd |].
  apply NoDup_app. split; [exact Hnd |]. split; [| apply NoDup_singleton].
  intros x Hx Hx'. apply list_elem_of_singleton in Hx'. subst x. contradiction.
Qed.

Lemma set_preference_then_get_witness :
  preferences_unique (final_store (set_preference clock_a
     {| pf_key := "theme"; pf_value := "light" |} sample_store)) ∧
  response (get_preference "theme" (final_store (set_preference clock_a
     {| pf_key := "theme"; pf_value := "light" |} sample_store)))
  = Ok {| pf_key := "theme"; pf_value := "light" |}.
Proof.
  destruct (set_preference_then_get clock_a
              {| pf_key := "theme"; pf_value := "light" |} sample_store)
    as (_ & Hget & _ & Huniq & _).
  split; [apply Huniq; apply NoDup_singleton |].
  exact (f_equal snd Hget).
Defined.

(** ** The ids of [backlog] *)

Lemma add_backlog_item_run (clk : Clock) (item : BacklogItem) (s : Store) :
  add_backlog_item clk item s =
  ((insert_backlog clk item s).1, Ok (backlog_response (inserted_row clk item s))).
Proof.
  unfold add_backlog_item. rewrite bind_execute, bind_query.
  unfold insert_backlog. simpl. fold (inserted_row clk item s).
  change (next_rowid (backlog_seq s) (backlog s)) with (b_id (inserted_row clk item s)).
  assert (Hsel : select_backlog_item (b_id (inserted_row clk item s))
                   (backlog s ++ [inserted_row clk item s])
                 = Some (inserted_row clk item s)).
  { unfold select_backlog_item. rewrite find_app_first.
    pose proof (next_rowid_fresh (backlog_seq s) (backlog s)) as Hfresh.
    apply (find_key_None b_id) in Hfresh.
    change (next_rowid (backlog_seq s) (backlog s))
      with (b_id (inserted_row clk item s)) in Hfresh.
    rewrite Hfresh. simpl. by rewrite bool_decide_eq_true_2. }
  by rewrite Hsel.
Qed.

Lemma backlog_after_add (clk : Clock) (item : BacklogItem) (s : Store) :
  backlog (final_store (add_backlog_item clk item s)) =
  backlog s ++ [inserted_row clk item s].
Proof. by rewrite add_backlog_item_run. Qed.

Lemma backlog_seq_after_add (clk : Clock) (item : BacklogItem) (s : Store) :
  backlog_seq (final_store (add_backlog_item clk item s)) =
  next_rowid (backlog_seq s) (backlog s).
Proof. by rewrite add_backlog_item_run. Qed.

Lemma backlog_after_toggle (i : Z) (s : Store) :
  backlog (final_store (toggle_backlog_complete i s)) =
  (λ r, if bool_decide (b_id r = i) then toggle_row r else r) <$> backlog s.
Proof. by rewrite toggle_backlog_complete_run. Qed.

Lemma backlog_after_delete (i : Z) (s : Store) :
  backlog (final_store (delete_backlog_item i s)) =
  filter (λ r, b_id r ≠ i) (backlog s).
Proof. by rewrite delete_backlog_item_run. Qed.



Lemma next_rowid_above_seq (seq : Z) (bs : list BacklogRow) : seq < next_rowid seq bs.
Proof. unfold next_rowid. lia. Qed.

Lemma next_rowid_above_ids (seq : Z) (bs : list BacklogRow) (r : BacklogRow) :
  r ∈ bs → b_id r < next_rowid seq bs.
Proof. intros Hr. apply max_id_bound in Hr. unfold next_rowid. lia. Qed.

(** X8.  The ids of [backlog] stay unique and bounded by the AUTOINCREMENT
    counter: this holds in the empty store and the three writers of the
    table (add, toggle, delete) keep it. *)
Theorem backlog_wf_invariant (clk : Clock) (item : BacklogItem) (i : Z) (s : Store) :
  backlog_wf empty_store ∧
  (backlog_wf s →
   backlog_wf (final_store (add_backlog_item clk item s)) ∧
   backlog_wf (final_store (toggle_backlog_complete i s)) ∧
   backlog_wf (final_store (delete_backlog_item i s))).
Proof.
  split.
  { split; [apply NoDup_nil_2 |]. split; [done |].
    intros r Hr. by apply not_elem_of_nil in Hr. }
  intros (Hnd & Hseq & Hle). split; [| split].
  - unfold backlog_wf. rewrite backlog_after_add, backlog_seq_after_add.
    split; [| split].
    + rewrite fmap_app. apply NoDup_app. split; [exact Hnd |].
      split; [| apply NoDup_singleton].
      intros x Hx Hx'. apply list_elem_of_singleton in Hx'. subst x.
      by apply next_rowid_fresh in Hx.
    + pose proof (next_rowid_above_seq (backlog_seq s) (backlog s)). lia.
    + intros r Hr. apply elem_of_app in Hr as [Hr | Hr].
      * apply (next_rowid_above_ids (backlog_seq s)) in Hr. lia.
      * apply list_elem_of_singleton in Hr. subst r. reflexivity.
  - unfold backlog_wf. rewrite backlog_after_toggle, toggled_ids.
    rewrite toggle_backlog_complete_run. unfold final_store. simpl.
    split; [exact Hnd |]. split; [exact Hseq |].
    intros r Hr. apply list_elem_of_fmap in Hr as (r0 & -> & Hr0).
    specialize (Hle r0 Hr0). by case_bool_decide.
  - unfold backlog_wf. rewrite backlog_after_delete.
    rewrite delete_backlog_item_run. unfold final_store. simpl.
    split; [| split; [exact Hseq |]].
    + apply (sublist_NoDup _ (b_id <$> backlog s)); [exact Hnd |].
      apply fmap_sublist, sublist_filter.
    + intros r Hr. apply list_elem_of_filter in Hr as [_ Hr]. by apply Hle.
Qed.

Lemma sample_store_wf : backlog_wf sample_store.
Proof.
  split; [| split; [done |]].
  - apply (bool_decide_unpack _). vm_compute. exact I.
  - intros r Hr. simpl in Hr.
    apply elem_of_cons in Hr as [-> | Hr]; [simpl; lia |].
    apply list_elem_of_singleton in Hr. subst r. simpl. lia.
Qed.

Lemma backlog_wf_invariant_witness :
  backlog_wf (final_store (add_backlog_item clock_c water_item sample_store)) ∧
  backlog_wf (final_store (toggle_backlog_complete 1 sample_store)) ∧
  backlog_wf (final_store (delete_backlog_item 1 sample_store)).
Proof.
  destruct (backlog_wf_invariant clock_c water_item 1 sample_store) as [_ Hkeep].
  apply Hkeep. apply sample_store_wf.
Defined.



(** ** Deleting an item *)



(** ** Adding an item *)



(** ** Counters of the summary *)

Lemma completed_after_toggle (i : Z) (bs : list BacklogRow) (row : BacklogRow) :
  NoDup (b_id <$> bs) → select_backlog_item i bs = Some row →
  Z.of_nat (length (filter (λ r, b_completed r = true)
     ((λ r, if bool_decide (b_id r = i) then toggle_row r else r) <$> bs))) =
  Z.of_nat (length (filter (λ r, b_completed r = true) bs))
  + (if b_completed row then -1 else 1).
Proof.
  unfold select_backlog_item.
  induction bs as [| r bs IH]; intros Hnd Hsel; [discriminate |].
  rewrite fmap_cons in Hnd. apply NoDup_cons in Hnd as [Hr Hnd].
  simpl in Hsel. rewrite fmap_cons.
  destruct (decide (b_id r = i)) as [Heq | Hne].
  - rewrite (bool_decide_eq_true_2 _ Heq) in Hsel. injection Hsel as ->.
    rewrite (bool_decide_eq_true_2 _ Heq). subst i.
    rewrite (fmap_at_key_absent b_id) by exact Hr.
    destruct (b_completed row) eqn:Hc.
    + rewrite filter_cons_False by (unfold toggle_row; simpl; rewrite Hc; discriminate).
      rewrite filter_cons_True by exact Hc. simpl length. lia.
    + rewrite filter_cons_True by (unfold toggle_row; simpl; by rewrite Hc).
      rewrite filter_cons_False by (rewrite Hc; discriminate). simpl length. lia.
  - rewrite (bool_decide_eq_false_2 _ Hne) in Hsel.
    rewrite (bool_decide_eq_false_2 _ Hne). specialize (IH Hnd Hsel).
    destruct (decide (b_completed r = true)) as [Hc | Hc].
    + rewrite !filter_cons_True by exact Hc. simpl length. lia.
    + rewrite !filter_cons_False by exact Hc. exact IH.
Qed.

(** X13.  With unique ids, toggling an existing item moves the completed
    counter of the summary by exactly one, up for an open item and down for
    a completed one, and leaves the other counters alone. *)
Theorem toggle_moves_completed_counter (clk : Clock) (i : Z) (row : BacklogRow)
    (s : Store) :
  NoDup (b_id <$> backlog s) → select_backlog_item i (backlog s) = Some row →
  ∃ before after,
    response (get_stats_summary clk s) = Ok before ∧
    response (get_stats_summary clk (final_store (toggle_backlog_complete i s)))
      = Ok after ∧
    completed_backlog_items after =
      completed_backlog_items before + (if b_completed row then -1 else 1) ∧
    total_backlog_items after = total_backlog_items before ∧
    total_viewers after = total_viewers before ∧
    active_viewers_24h after = active_viewers_24h before.
Proof.
  intros Hnd Hsel. rewrite !get_stats_summary_run. unfold response. cbn [snd].
  do 2 eexists. split; [reflexivity |]. split; [reflexivity |].
  cbn [completed_backlog_items total_backlog_items total_viewers active_viewers_24h].
  unfold count_completed, count_backlog, count_viewers, count_active_viewers.
  rewrite backlog_after_toggle.
  assert (Hv : viewers (final_store (toggle_backlog_complete i s)) = viewers s)
    by (by rewrite toggle_backlog_complete_run).
  rewrite Hv, length_fmap.
  split; [by apply completed_after_toggle | done].
Qed.

Lemma toggle_moves_completed_counter_witness :
  ∃ before after,
    response (get_stats_summary clock_c sample_store) = Ok before ∧
    response (get_stats_summary clock_c
                (final_store (toggle_backlog_complete 2 sample_store))) = Ok after ∧
    completed_backlog_items after = completed_backlog_items before + -1 ∧
    total_backlog_items after = total_backlog_items before ∧
    total_viewers after = total_viewers before ∧
    active_viewers_24h after = active_viewers_24h before.
Proof.
  apply (toggle_moves_completed_counter clock_c 2
           (example_row 2 "alice" "drink water" true 4 101) sample_store).
  - decide_by_computation.
  - reflexivity.
Defined.

(** X14.  The counters of the summary are consistent: active viewers are at
    most all viewers and completed items at most all items.  A non-empty
    backlog with nothing completed has the float rate 0.0, and for up to 200
    rows the rate is a decimal between 0.0 and 100.0, 100.0 when every item
    is completed. *)
Theorem stats_summary_bounds (clk : Clock) (s : Store) :
  ∃ summary, get_stats_summary clk s = (s, Ok summary) ∧
    0 ≤ active_viewers_24h summary ≤ total_viewers summary ∧
    0 ≤ completed_backlog_items summary ≤ total_backlog_items summary ∧
    (0 < total_backlog_items summary → completed_backlog_items summary = 0 →
     completion_rate summary = PyFloat (S754_zero false)) ∧
    (0 < total_backlog_items summary ≤ 200 →
     ∃ n, completion_rate summary = PyFloat (nearest_float n 10) ∧
          0 ≤ n ≤ 1000 ∧
          (completed_backlog_items summary = total_backlog_items summary → n = 1000)).
Proof.
  eexists. split; [apply get_stats_summary_run |].
  cbn [completed_backlog_items total_backlog_items total_viewers active_viewers_24h
       completion_rate].
  pose proof (count_completed_le s) as Hc.
  set (t := count_backlog s) in *. set (c := count_completed s) in *.
  split.
  { unfold count_active_viewers, count_viewers.
    pose proof (length_filter (λ r, db_now clk - 86400 < v_last_active r) (viewers s)).
    lia. }
  split; [exact Hc |].
  split.
  { intros Ht Hzero. destruct (Z.ltb_spec 0 t) as [_ | Hneg]; [| lia].
    rewrite Hzero. reflexivity. }
  intros Ht. destruct (Z.ltb_spec 0 t) as [_ | Hneg]; [| lia].
  pose proof (rate_rounded_up_to_200 c t Hc Ht) as Hok.
  unfold rate_rounded in Hok. apply andb_prop in Hok as [Hfloat Hnear].
  apply bool_decide_eq_true in Hfloat, Hnear.
  eexists. split; [by rewrite Hfloat |].
  split; [nia |]. intros Hall. nia.
Qed.

